(** * The slide-deck navigator of [presentation/script.js]

    A shallow embedding of the navigation controller: the DOM objects the
    script touches are a record, every DOM assignment the script performs is
    also recorded as a [Write] event, and the one way the script can fault
    (dereferencing [slides[current]] when it is [undefined]) is an explicit
    [TypeError] result. *)

From Stdlib Require Import ZArith Lia.
From stdpp Require Import base list strings pretty.

Local Open Scope string_scope.
Local Open Scope list_scope.
Local Open Scope Z_scope.

(** ** The DOM as the script sees it *)

(** A [.slide] element: [dataset.title] is [undefined] ([None]) when the
    element has no [data-title] attribute; [style.display] is the element's
    inline display value (the empty string when none is set).  Text is held
    as the bytes of its UTF-8 encoding. *)
Record Slide := {
  dataset_title : option string;
  style_display : string
}.

(** What a breadcrumb's click listener does: [() => goTo(index)], with the
    [index] captured when the marker was built. *)
Inductive Listener := CallGoTo (index : nat).

Record Span := {
  span_className : string;
  span_textContent : string
}.

(** A breadcrumb marker: the [div] with its class, its two [span] children
    and its click listeners. *)
Record Crumb := {
  crumb_className : string;
  crumb_children : list Span;
  crumb_click : list Listener
}.

(** The host page before the script runs. *)
Record Page := {
  page_slides : list Slide;
  page_prev_disabled : bool;
  page_next_disabled : bool;
  page_breadcrumbs : list Crumb
}.

(** The state the script reads and writes: the queried elements and the
    closure variable [current]. *)
Record State := {
  slides : list Slide;
  prevBtn_disabled : bool;
  nextBtn_disabled : bool;
  breadcrumbs : list Crumb;
  current : Z
}.

(** One event per DOM assignment of the script. *)
Inductive Write :=
| WDisplay (idx : Z) (v : string)     (* slides[idx].style.display = v *)
| WClearBreadcrumbs                   (* breadcrumbs.innerHTML = ''    *)
| WAppendCrumb (c : Crumb)            (* breadcrumbs.appendChild(c)    *)
| WPrevDisabled (b : bool)            (* prevBtn.disabled = b          *)
| WNextDisabled (b : bool).           (* nextBtn.disabled = b          *)

(** ** A state, log and error monad for the script's statements *)

(** The outcome of running statements: normal completion, or the
    [TypeError] of reading a property of [undefined].  No reachable state
    faults ([goTo_total] below), so the state a fault would leave behind is
    not kept. *)
Inductive Res (A : Type) :=
| Ok (a : A)
| TypeError.
Arguments Ok {A} a.
Arguments TypeError {A}.

Definition M (A : Type) : Type := State → Res (A * State * list Write).

Global Instance M_ret : MRet M := λ A a st, Ok (a, st, []).

Global Instance M_bind : MBind M := λ A B k m st,
  match m st with
  | Ok (a, st1, w1) =>
      match k a st1 with
      | Ok (b, st2, w2) => Ok (b, st2, w1 ++ w2)
      | TypeError => TypeError
      end
  | TypeError => TypeError
  end.

Definition get_current : M Z := λ st, Ok (current st, st, []).

Definition get_slides : M (list Slide) := λ st, Ok (slides st, st, []).

Definition get_breadcrumbs : M (list Crumb) := λ st,
  Ok (breadcrumbs st, st, []).

Definition set_current (c : Z) : M unit := λ st,
  Ok (tt, {| slides := slides st; prevBtn_disabled := prevBtn_disabled st;
             nextBtn_disabled := nextBtn_disabled st;
             breadcrumbs := breadcrumbs st; current := c |}, []).

(** [a[i]] on a JS array: [undefined] outside [0 .. length-1]. *)
Definition js_index {A} (a : list A) (i : Z) : option A :=
  if decide (i < 0) then None else a !! Z.to_nat i.

Definition with_display (v : string) (s : Slide) : Slide :=
  {| dataset_title := dataset_title s; style_display := v |}.

(** [slides[i].style.display = v]; a [TypeError] when [slides[i]] is
    [undefined]. *)
Definition set_display (i : Z) (v : string) : M unit := λ st,
  match js_index (slides st) i with
  | None => TypeError
  | Some _ =>
      Ok (tt, {| slides := alter (with_display v) (Z.to_nat i) (slides st);
                 prevBtn_disabled := prevBtn_disabled st;
                 nextBtn_disabled := nextBtn_disabled st;
                 breadcrumbs := breadcrumbs st; current := current st |},
          [WDisplay i v])
  end.

Definition clear_breadcrumbs : M unit := λ st,
  Ok (tt, {| slides := slides st; prevBtn_disabled := prevBtn_disabled st;
             nextBtn_disabled := nextBtn_disabled st;
             breadcrumbs := []; current := current st |},
      [WClearBreadcrumbs]).

Definition appendChild (c : Crumb) : M unit := λ st,
  Ok (tt, {| slides := slides st; prevBtn_disabled := prevBtn_disabled st;
             nextBtn_disabled := nextBtn_disabled st;
             breadcrumbs := breadcrumbs st ++ [c]; current := current st |},
      [WAppendCrumb c]).

Definition set_prev_disabled (b : bool) : M unit := λ st,
  Ok (tt, {| slides := slides st; prevBtn_disabled := b;
             nextBtn_disabled := nextBtn_disabled st;
             breadcrumbs := breadcrumbs st; current := current st |},
      [WPrevDisabled b]).

Definition set_next_disabled (b : bool) : M unit := λ st,
  Ok (tt, {| slides := slides st; prevBtn_disabled := prevBtn_disabled st;
             nextBtn_disabled := b;
             breadcrumbs := breadcrumbs st; current := current st |},
      [WNextDisabled b]).

(** [slides.forEach((slide, index) => ...)]: the callback runs once per
    element, in order, with the element and its index.  The callbacks of the
    script read only [dataset.title], which nothing writes, so the element
    value is taken from the array as it is when the loop starts; writes go
    through the index. *)
Fixpoint forEach_from (index : nat) (l : list Slide)
    (f : Slide → nat → M unit) : M unit :=
  match l with
  | [] => mret tt
  | slide :: rest => f slide index ;; forEach_from (S index) rest f
  end.

Definition forEach (f : Slide → nat → M unit) : M unit :=
  l ← get_slides; forEach_from 0 l f.

(** ** The script *)

(** [a || b] on a possibly-undefined string: [b] when [a] is [undefined] or
    empty. *)
Definition js_or (a : option string) (b : string) : string :=
  match a with
  | Some s => if decide (s = "") then b else s
  | None => b
  end.

(** The marker built by one round of the loop in [updateBreadcrumbs]. *)
Definition make_crumb (cur : Z) (slide : Slide) (index : nat) : Crumb :=
  {| crumb_className :=
       "crumb" +:+ (if decide (Z.of_nat index = cur) then " active" else "");
     crumb_children :=
       [ {| span_className := "dot"; span_textContent := "" |};
         {| span_className := "";
            span_textContent :=
              js_or (dataset_title slide) ("Слайд " +:+ pretty (index + 1)%nat) |} ];
     crumb_click := [CallGoTo index] |}.

Definition updateBreadcrumbs : M unit :=
  clear_breadcrumbs ;;
  forEach (λ slide index,
    cur ← get_current;
    appendChild (make_crumb cur slide index)).

Definition updateNav : M unit :=
  cur ← get_current;
  set_prev_disabled (bool_decide (cur = 0)) ;;
  cur ← get_current;
  l ← get_slides;
  set_next_disabled (bool_decide (cur = Z.of_nat (length l) - 1)).

Definition goTo (index : Z) : M unit :=
  l ← get_slides;
  cur ← get_current;
  let nextIndex := Z.max 0 (Z.min index (Z.of_nat (length l) - 1)) in
  if decide (nextIndex = cur) then mret tt else
  set_display cur "none" ;;
  set_current nextIndex ;;
  cur ← get_current;
  set_display cur "" ;;
  updateBreadcrumbs ;;
  updateNav.

Definition next : M unit := cur ← get_current; goTo (cur + 1).
Definition prev : M unit := cur ← get_current; goTo (cur - 1).

(** The state when the script starts: the page's elements and
    [let current = 0]. *)
Definition boot (p : Page) : State :=
  {| slides := page_slides p; prevBtn_disabled := page_prev_disabled p;
     nextBtn_disabled := page_next_disabled p;
     breadcrumbs := page_breadcrumbs p; current := 0 |}.

(** The statements the script runs at load (lines 42-54); the listeners it
    registers are [handle] below. *)
Definition main : M unit :=
  forEach (λ slide idx,
    if decide (idx ≠ 0%nat) then set_display (Z.of_nat idx) "none"
    else mret tt) ;;
  updateBreadcrumbs ;;
  updateNav.

Definition init (p : Page) : Res (unit * State * list Write) := main (boot p).

(** ** The listeners the script registers *)

Inductive Event :=
| ClickPrev                 (* click on the previous control  *)
| ClickNext                 (* click on the next control      *)
| ClickCrumb (k : nat)      (* click on the k-th breadcrumb   *)
| KeyDown (key : string).   (* keydown on the document        *)

Definition run_listener (h : Listener) : M unit :=
  match h with CallGoTo index => goTo (Z.of_nat index) end.

Fixpoint run_listeners (hs : list Listener) : M unit :=
  match hs with
  | [] => mret tt
  | h :: rest => run_listener h ;; run_listeners rest
  end.

Definition handle (e : Event) : M unit :=
  match e with
  | ClickPrev => prev
  | ClickNext => next
  | ClickCrumb k =>
      bs ← get_breadcrumbs;
      match bs !! k with
      | Some c => run_listeners (crumb_click c)
      | None => mret tt
      end
  | KeyDown key =>
      (if decide (key = "ArrowRight") then next else mret tt) ;;
      (if decide (key = "ArrowLeft") then prev else mret tt)
  end.

(** ** Reachable states *)

(** The calls the claims speak of. *)
Inductive Call :=
| GoTo (i : Z)
| Next
| Prev.

Definition call (c : Call) : M unit :=
  match c with
  | GoTo i => goTo i
  | Next => next
  | Prev => prev
  end.

(** The states the controller can be in on page [p]: the one initialization
    leaves, and those any sequence of calls leads to. *)
Inductive reachable (p : Page) : State → Prop :=
| reachable_init st w :
    init p = Ok (tt, st, w) → reachable p st
| reachable_call st c st' w :
    reachable p st → call c st = Ok (tt, st', w) → reachable p st'.

(** ** Observations *)

(** A slide is shown unless its inline display is ['none']. *)
Definition visible (s : Slide) : bool :=
  bool_decide (style_display s ≠ "none").

(** The positions, counted from [k], of the elements that satisfy [f]. *)
Fixpoint positions {A} (f : A → bool) (k : nat) (l : list A) : list nat :=
  match l with
  | [] => []
  | x :: rest => (if f x then [k] else []) ++ positions f (S k) rest
  end.

(** The positions of the slides that are shown. *)
Definition visible_indices (l : list Slide) : list nat := positions visible 0 l.

(** A marker is flagged active when its class list has [active]. *)
Definition active (c : Crumb) : bool :=
  bool_decide (crumb_className c = "crumb active").

(** The positions of the markers that are flagged active. *)
Definition active_indices (l : list Crumb) : list nat := positions active 0 l.

(** The text of a marker: that of its label span, the second child. *)
Definition crumb_label (c : Crumb) : option string :=
  span_textContent <$> crumb_children c !! 1%nat.

(** The slide count [N]. *)
Definition slide_count (st : State) : Z := Z.of_nat (length (slides st)).

(** The clamped target of [goTo(i)]. *)
Definition clamp (st : State) (i : Z) : Z :=
  Z.max 0 (Z.min i (slide_count st - 1)).

(** The [style.display] assignments among a call's writes. *)
Definition display_writes (w : list Write) : list (Z * string) :=
  omap (λ x, match x with WDisplay k v => Some (k, v) | _ => None end) w.

(** ** Closed forms

    What the loops and calls of the script compute, written as plain
    functions.  They are not part of the script: [updateBreadcrumbs_run],
    [init_run] and [goTo_moves] below prove that running the script gives
    exactly these. *)

(** The breadcrumb view as a function of the slides and the current index. *)
Definition render (l : list Slide) (cur : Z) : list Crumb :=
  imap (λ k s, make_crumb cur s k) l.

(** The state [goTo] leaves when it moves from [current] to [t]. *)
Definition moved (st : State) (t : Z) : State :=
  let l := alter (with_display "") (Z.to_nat t)
             (alter (with_display "none") (Z.to_nat (current st)) (slides st)) in
  {| slides := l;
     prevBtn_disabled := bool_decide (t = 0);
     nextBtn_disabled := bool_decide (t = Z.of_nat (length l) - 1);
     breadcrumbs := render l t;
     current := t |}.

(** The writes [goTo] performs when it moves from [current] to [t]. *)
Definition moved_writes (st : State) (t : Z) : list Write :=
  [WDisplay (current st) "none"; WDisplay t ""; WClearBreadcrumbs]
  ++ (WAppendCrumb <$> breadcrumbs (moved st t))
  ++ [WPrevDisabled (prevBtn_disabled (moved st t));
      WNextDisabled (nextBtn_disabled (moved st t))].

(** The slides as the loop at load leaves them: all but the first hidden. *)
Definition hide_rest (k : nat) (l : list Slide) : list Slide :=
  imap (λ i s, if decide ((k + i)%nat ≠ 0%nat) then with_display "none" s else s) l.

(** The state initialization leaves. *)
Definition init_state (p : Page) : State :=
  let l := hide_rest 0 (page_slides p) in
  {| slides := l;
     prevBtn_disabled := true;
     nextBtn_disabled := bool_decide (0 = Z.of_nat (length l) - 1);
     breadcrumbs := render l 0;
     current := 0 |}.

(** What initialization establishes and every call keeps: the slide titles
    are the page's, the index is in range (0 on an empty deck), the view and
    the flags are those the index calls for, every slide but the current
    one is hidden, and the current one is shown if the page showed its
    first slide. *)
Record consistent (p : Page) (st : State) : Prop := {
  cons_titles :
    dataset_title <$> slides st = dataset_title <$> page_slides p;
  cons_range :
    0 ≤ current st ≤ Z.max 0 (slide_count st - 1);
  cons_breadcrumbs :
    breadcrumbs st = render (slides st) (current st);
  cons_prev :
    prevBtn_disabled st = bool_decide (current st = 0);
  cons_next :
    nextBtn_disabled st = bool_decide (current st = slide_count st - 1);
  cons_hidden :
    ∀ k s, slides st !! k = Some s → Z.of_nat k ≠ current st →
           style_display s = "none";
  cons_shown :
    ∀ s0, page_slides p !! 0%nat = Some s0 → visible s0 = true →
    ∀ s, slides st !! Z.to_nat (current st) = Some s → visible s = true
}.

(** The state after a run of events from load, when none faults. *)
Fixpoint after (es : list Event) (st : State) : option State :=
  match es with
  | [] => Some st
  | e :: rest =>
      match handle e st with
      | Ok (_, st', _) => after rest st'
      | TypeError => None
      end
  end.

Definition summary (st : State) : Z * list nat * list nat * bool * bool :=
  (current st, visible_indices (slides st), active_indices (breadcrumbs st),
   prevBtn_disabled st, nextBtn_disabled st).

(** ** Example pages *)

Definition plain_slide : Slide :=
  {| dataset_title := None; style_display := "" |}.

Definition page_of (l : list Slide) : Page :=
  {| page_slides := l; page_prev_disabled := false;
     page_next_disabled := false; page_breadcrumbs := [] |}.

(** Five untitled slides, none with an inline display. *)
Definition deck5 : Page := page_of (replicate 5 plain_slide).

(** Three slides: a titled one, an untitled one, one with an empty title. *)
Definition deck3 : Page :=
  page_of [ {| dataset_title := Some "Intro"; style_display := "" |};
            plain_slide;
            {| dataset_title := Some ""; style_display := "block" |} ].

(** A page without slides. *)
Definition empty_deck : Page := page_of [].

(** Two slides, the first carrying [style="display:none"] in the markup. *)
Definition hidden_first : Page :=
  page_of [ {| dataset_title := None; style_display := "none" |}; plain_slide ].

(** * Proofs *)

Ltac run := unfold mbind, M_bind, mret, M_ret; simpl.

(** ** The loops and the two render functions in closed form *)

Lemma forEach_from_crumbs (l : list Slide) : ∀ (k : nat) (st : State),
  forEach_from k l
    (λ slide index, cur ← get_current; appendChild (make_crumb cur slide index)) st
  = Ok (tt,
        {| slides := slides st; prevBtn_disabled := prevBtn_disabled st;
           nextBtn_disabled := nextBtn_disabled st;
           breadcrumbs :=
             breadcrumbs st ++ imap (λ i s, make_crumb (current st) s (k + i)) l;
           current := current st |},
        WAppendCrumb <$> imap (λ i s, make_crumb (current st) s (k + i)) l).
Proof.
  induction l as [|s l IH]; intros k st.
  - destruct st; simpl. run. by rewrite app_nil_r.
  - simpl. run. rewrite IH. simpl.
    rewrite Nat.add_0_r, <- app_assoc. simpl.
    assert (E : imap (λ i s0, make_crumb (current st) s0 (S (k + i))) l
              = imap ((λ i s0, make_crumb (current st) s0 (k + i)) ∘ S) l).
    { apply imap_ext. intros i x _. simpl. f_equal. lia. }
    by rewrite E.
Qed.

Lemma updateBreadcrumbs_run (st : State) :
  updateBreadcrumbs st
  = Ok (tt,
        {| slides := slides st; prevBtn_disabled := prevBtn_disabled st;
           nextBtn_disabled := nextBtn_disabled st;
           breadcrumbs := render (slides st) (current st);
           current := current st |},
        WClearBreadcrumbs :: (WAppendCrumb <$> render (slides st) (current st))).
Proof.
  unfold updateBreadcrumbs, forEach. run.
  rewrite forEach_from_crumbs. simpl. reflexivity.
Qed.

Lemma updateNav_run (st : State) :
  updateNav st
  = Ok (tt,
        {| slides := slides st;
           prevBtn_disabled := bool_decide (current st = 0);
           nextBtn_disabled :=
             bool_decide (current st = Z.of_nat (length (slides st)) - 1);
           breadcrumbs := breadcrumbs st;
           current := current st |},
        [WPrevDisabled (bool_decide (current st = 0));
         WNextDisabled
           (bool_decide (current st = Z.of_nat (length (slides st)) - 1))]).
Proof. reflexivity. Qed.

Lemma js_index_Some {A} (l : list A) (i : Z) :
  0 ≤ i < Z.of_nat (length l) → is_Some (js_index l i).
Proof.
  intros Hi. unfold js_index. destruct (decide (i < 0)); [lia|].
  apply lookup_lt_is_Some. lia.
Qed.

Lemma js_index_None {A} (l : list A) (i : Z) :
  ¬ (0 ≤ i < Z.of_nat (length l)) → js_index l i = None.
Proof.
  intros Hi. unfold js_index. destruct (decide (i < 0)); [done|].
  apply lookup_ge_None. lia.
Qed.

Lemma forEach_from_hide (l : list Slide) : ∀ (k : nat) (pre : list Slide) (st : State),
  slides st = pre ++ l → length pre = k →
  ∃ w,
    forEach_from k l
      (λ slide idx,
         if decide (idx ≠ 0%nat) then set_display (Z.of_nat idx) "none"
         else mret tt) st
    = Ok (tt,
          {| slides := pre ++ hide_rest k l;
             prevBtn_disabled := prevBtn_disabled st;
             nextBtn_disabled := nextBtn_disabled st;
             breadcrumbs := breadcrumbs st; current := current st |},
          w).
Proof.
  remember (λ (slide : Slide) (idx : nat),
              if decide (idx ≠ 0%nat) then set_display (Z.of_nat idx) "none"
              else mret tt) as f eqn:Hf.
  induction l as [|s l IH]; intros k pre st Hs Hk.
  - exists []. destruct st; simpl in *. run. by subst.
  - assert (Htl : ∀ g : Slide → Slide,
              (pre ++ [g s]) ++ hide_rest (S k) l
              = pre ++ (g s :: imap ((λ i s0,
                  if decide ((k + i)%nat ≠ 0%nat)
                  then with_display "none" s0 else s0) ∘ S) l)).
    { intros g. rewrite <- app_assoc. simpl. do 2 f_equal.
      apply imap_ext. intros i x _. simpl.
      replace (k + S i)%nat with (S (k + i)) by lia. done. }
    destruct (decide (k ≠ 0%nat)) as [Hne|Heq].
    + set (st1 := {| slides := alter (with_display "none") k (slides st);
                     prevBtn_disabled := prevBtn_disabled st;
                     nextBtn_disabled := nextBtn_disabled st;
                     breadcrumbs := breadcrumbs st; current := current st |}).
      assert (Hhead : f s k st = Ok (tt, st1, [WDisplay (Z.of_nat k) "none"])).
      { subst f. simpl. destruct (decide (k ≠ 0%nat)); [|contradiction].
        unfold set_display.
        destruct (js_index_Some (slides st) (Z.of_nat k)) as [s' ->].
        { rewrite Hs, length_app. simpl. lia. }
        by rewrite Nat2Z.id. }
      destruct (IH (S k) (pre ++ [with_display "none" s]) st1) as [w Hw].
      { simpl. rewrite Hs. rewrite <- (Nat.add_0_r k), <- Hk.
        rewrite alter_app_r. simpl. by rewrite <- app_assoc. }
      { rewrite length_app. simpl. lia. }
      simpl. unfold mbind, M_bind. rewrite Hhead, Hw. simpl.
      eexists. do 3 f_equal.
      rewrite (Htl (with_display "none")). f_equal.
      unfold hide_rest. simpl. rewrite Nat.add_0_r.
      destruct (decide (k ≠ 0%nat)); [done|contradiction].
    + assert (Hhead : f s k st = Ok (tt, st, [])).
      { subst f. simpl. destruct (decide (k ≠ 0%nat)); [contradiction|done]. }
      destruct (IH (S k) (pre ++ [s]) st) as [w Hw].
      { rewrite Hs. by rewrite <- app_assoc. }
      { rewrite length_app. simpl. lia. }
      simpl. unfold mbind, M_bind. rewrite Hhead, Hw. simpl.
      eexists. do 3 f_equal.
      change (pre ++ [s]) with (pre ++ [id s]).
      rewrite (Htl id). simpl. f_equal.
      unfold hide_rest. simpl. rewrite Nat.add_0_r.
      destruct (decide (k ≠ 0%nat)); [contradiction|done].
Qed.

(** Initialization never faults; it leaves [init_state] and ends by writing
    the breadcrumb view and the two flags. *)
Lemma init_run (p : Page) :
  ∃ w,
    init p
    = Ok (tt, init_state p,
          w ++ WClearBreadcrumbs
            :: (WAppendCrumb <$> breadcrumbs (init_state p))
            ++ [WPrevDisabled (prevBtn_disabled (init_state p));
                WNextDisabled (nextBtn_disabled (init_state p))]).
Proof.
  destruct (forEach_from_hide (page_slides p) 0 [] (boot p)) as [w Hw];
    [done..|].
  unfold init, main, forEach, mbind, M_bind, get_slides.
  change (slides (boot p)) with (page_slides p).
  rewrite Hw. simpl. rewrite updateBreadcrumbs_run. simpl.
  exists w. unfold init_state. simpl.
  reflexivity.
Qed.

(** ** [goTo] in closed form *)

Lemma goTo_stays (st : State) (i : Z) :
  clamp st i = current st → goTo i st = Ok (tt, st, []).
Proof.
  unfold clamp, slide_count, goTo. intros H. run.
  destruct (decide _) as [_|Hne]; [done|contradiction].
Qed.

Lemma clamp_range (st : State) (i : Z) :
  1 ≤ slide_count st → 0 ≤ clamp st i < slide_count st.
Proof. unfold clamp. lia. Qed.

Lemma goTo_moves (st : State) (i : Z) :
  clamp st i ≠ current st →
  0 ≤ current st < slide_count st →
  goTo i st = Ok (tt, moved st (clamp st i), moved_writes st (clamp st i)).
Proof.
  intros Hne Hc.
  assert (Ht : 0 ≤ clamp st i < slide_count st) by (apply clamp_range; lia).
  unfold goTo. run. fold (slide_count st). fold (clamp st i).
  destruct (decide (clamp st i = current st)) as [|_]; [contradiction|].
  unfold set_display at 1.
  destruct (js_index_Some (slides st) (current st) Hc) as [sc ->].
  simpl. unfold set_display.
  simpl.
  destruct (js_index_Some
              (alter (with_display "none") (Z.to_nat (current st)) (slides st))
              (clamp st i)) as [s' ->].
  { rewrite length_alter. exact Ht. }
  simpl. rewrite updateBreadcrumbs_run. simpl. reflexivity.
Qed.

Lemma goTo_faults (st : State) (i : Z) :
  clamp st i ≠ current st →
  ¬ (0 ≤ current st < slide_count st) →
  goTo i st = TypeError.
Proof.
  intros Hne Hc. unfold goTo. run. fold (slide_count st). fold (clamp st i).
  destruct (decide (clamp st i = current st)) as [|_]; [contradiction|].
  unfold set_display at 1. by rewrite js_index_None.
Qed.

(** ** [next] and [prev] are calls of [goTo] *)

Lemma bind_get_current {A} (k : Z → M A) (st : State) :
  (cur ← get_current; k cur) st = k (current st) st.
Proof.
  unfold mbind, M_bind, get_current.
  destruct (k (current st) st) as [[[a st'] w]|]; reflexivity.
Qed.

Lemma call_goTo (c : Call) (st : State) :
  ∃ i, call c st = goTo i st.
Proof.
  destruct c as [i| |]; simpl.
  - by exists i.
  - exists (current st + 1). apply bind_get_current.
  - exists (current st - 1). apply bind_get_current.
Qed.

(** ** What every reachable state satisfies *)

Lemma consistent_count (p : Page) (st : State) :
  consistent p st → slide_count st = Z.of_nat (length (page_slides p)).
Proof.
  intros H. unfold slide_count.
  rewrite <- (length_fmap dataset_title (slides st)), (cons_titles _ _ H).
  by rewrite length_fmap.
Qed.

Lemma consistent_in_range (p : Page) (st : State) :
  consistent p st → page_slides p ≠ [] → 0 ≤ current st < slide_count st.
Proof.
  intros H Hne. pose proof (cons_range _ _ H) as Hr.
  rewrite (consistent_count p st H) in *.
  destruct (page_slides p); [done|]. simpl length in *. lia.
Qed.

Lemma consistent_init (p : Page) : consistent p (init_state p).
Proof.
  split; unfold init_state, slide_count; simpl.
  - apply list_eq. intros i. unfold hide_rest.
    rewrite !list_lookup_fmap, list_lookup_imap.
    destruct (page_slides p !! i); simpl; [|done].
    by destruct (decide _).
  - lia.
  - done.
  - done.
  - done.
  - intros k s Hs Hk. unfold hide_rest in Hs.
    rewrite list_lookup_imap in Hs.
    destruct (page_slides p !! k) as [s1|]; simpl in Hs; [|done].
    destruct (decide _) as [_|Hz]; [|lia].
    by inversion Hs.
  - intros s0 Hs0 Hv s Hs. unfold hide_rest in Hs.
    change (Z.to_nat 0) with 0%nat in Hs.
    rewrite list_lookup_imap, Hs0 in Hs. simpl in Hs.
    by inversion Hs; subst.
Qed.

Lemma clamp_stays_when_empty (st : State) (i : Z) :
  slide_count st = 0 → clamp st i = 0.
Proof. unfold clamp. lia. Qed.

Lemma moved_in_range (p : Page) (st : State) (i : Z) :
  consistent p st → clamp st i ≠ current st →
  0 ≤ current st < slide_count st.
Proof.
  intros H Hne. pose proof (cons_range _ _ H) as Hr.
  destruct (decide (slide_count st = 0)) as [Hz|Hz].
  - rewrite (clamp_stays_when_empty st i Hz) in Hne. lia.
  - unfold slide_count in *. lia.
Qed.

Lemma moved_count (st : State) (t : Z) :
  slide_count (moved st t) = slide_count st.
Proof. unfold slide_count, moved. simpl. by rewrite !length_alter. Qed.

Lemma moved_lookup_target (st : State) (t : Z) (s' : Slide) :
  slides (moved st t) !! Z.to_nat t = Some s' → style_display s' = "".
Proof.
  unfold moved. simpl. rewrite list_lookup_alter_eq.
  destruct (_ !! _); simpl; [|done]. by intros [= <-].
Qed.

Lemma moved_lookup_source (st : State) (t : Z) (s' : Slide) :
  0 ≤ t → 0 ≤ current st → t ≠ current st →
  slides (moved st t) !! Z.to_nat (current st) = Some s' →
  style_display s' = "none".
Proof.
  intros Ht Hc Hne. unfold moved. simpl.
  rewrite list_lookup_alter_ne by lia. rewrite list_lookup_alter_eq.
  destruct (_ !! _); simpl; [|done]. by intros [= <-].
Qed.

Lemma moved_lookup_other (st : State) (t : Z) (k : nat) :
  k ≠ Z.to_nat t → k ≠ Z.to_nat (current st) →
  slides (moved st t) !! k = slides st !! k.
Proof.
  intros Ht Hc. unfold moved. simpl.
  by rewrite !list_lookup_alter_ne.
Qed.

Lemma moved_titles (st : State) (t : Z) :
  dataset_title <$> slides (moved st t) = dataset_title <$> slides st.
Proof.
  unfold moved. simpl.
  assert (E : ∀ v k (l : list Slide),
            dataset_title <$> alter (with_display v) k l = dataset_title <$> l).
  { intros v k l. apply list_eq. intros j. rewrite !list_lookup_fmap.
    destruct (decide (k = j)) as [->|Hkj].
    - rewrite list_lookup_alter_eq. by destruct (l !! j).
    - by rewrite list_lookup_alter_ne. }
  by rewrite !E.
Qed.

Lemma consistent_moved (p : Page) (st : State) (i : Z) :
  consistent p st → clamp st i ≠ current st →
  consistent p (moved st (clamp st i)).
Proof.
  intros H Hne.
  pose proof (moved_in_range p st i H Hne) as Hc.
  assert (Ht : 0 ≤ clamp st i < slide_count st) by (apply clamp_range; lia).
  split.
  - rewrite moved_titles. apply (cons_titles _ _ H).
  - rewrite moved_count. simpl. lia.
  - done.
  - done.
  - rewrite moved_count. unfold moved, slide_count. simpl.
    by rewrite !length_alter.
  - intros k s Hs Hk. simpl in Hk.
    destruct (decide (k = Z.to_nat (current st))) as [->|Hkc].
    + by apply (moved_lookup_source st (clamp st i)); try lia.
    + rewrite moved_lookup_other in Hs by lia.
      apply (cons_hidden _ _ H k s Hs). lia.
  - intros s0 _ _ s Hs. simpl in Hs.
    apply moved_lookup_target in Hs. unfold visible.
    rewrite Hs. by apply bool_decide_eq_true_2.
Qed.

Lemma goTo_consistent (p : Page) (st st' : State) (i : Z) (w : list Write) :
  consistent p st → goTo i st = Ok (tt, st', w) → consistent p st'.
Proof.
  intros H Hgo.
  destruct (decide (clamp st i = current st)) as [Heq|Hne].
  - rewrite (goTo_stays st i Heq) in Hgo. by inversion Hgo; subst.
  - rewrite (goTo_moves st i Hne (moved_in_range p st i H Hne)) in Hgo.
    inversion Hgo; subst. by apply consistent_moved.
Qed.

Lemma reachable_consistent (p : Page) (st : State) :
  reachable p st → consistent p st.
Proof.
  induction 1 as [st w Hinit|st c st' w _ IH Hcall].
  - destruct (init_run p) as [w' Hrun]. rewrite Hrun in Hinit.
    inversion Hinit; subst. apply consistent_init.
  - destruct (call_goTo c st) as [i Hi]. rewrite Hi in Hcall.
    by apply (goTo_consistent p st st' i w).
Qed.

(** [goTo] never faults in a reachable state. *)
Lemma goTo_total (p : Page) (st : State) (i : Z) :
  consistent p st →
  goTo i st = Ok (tt, st, []) ∧ clamp st i = current st
  ∨ goTo i st = Ok (tt, moved st (clamp st i), moved_writes st (clamp st i))
    ∧ clamp st i ≠ current st.
Proof.
  intros H. destruct (decide (clamp st i = current st)) as [Heq|Hne].
  - left. split; [by apply goTo_stays|done].
  - right. split; [|done].
    apply goTo_moves; [done|]. by apply (moved_in_range p st i).
Qed.

Lemma reachable_init_state (p : Page) : reachable p (init_state p).
Proof. destruct (init_run p) as [w Hw]. eapply reachable_init. exact Hw. Qed.

(** ** Counting positions *)

Lemma positions_single {A} (f : A → bool) (l : list A) : ∀ (k c : nat),
  (∀ i x, l !! i = Some x → (f x = true ↔ (k + i)%nat = c)) →
  positions f k l = if decide (k ≤ c < k + length l)%nat then [c] else [].
Proof.
  induction l as [|x l IH]; intros k c H; simpl.
  - destruct (decide _); [lia|done].
  - assert (Hx : f x = true ↔ k = c).
    { rewrite (H 0%nat x eq_refl). lia. }
    rewrite (IH (S k) c).
    2:{ intros i y Hy. rewrite (H (S i) y Hy). lia. }
    destruct (f x) eqn:Hfx.
    + assert (k = c) by (by apply Hx). subst k.
      destruct (decide (S c ≤ c < _)%nat); [lia|].
      destruct (decide (c ≤ c < _)%nat); [done|lia].
    + assert (k ≠ c) by (intros ->; destruct Hx as [_ Hx]; by specialize (Hx eq_refl)).
      simpl. destruct (decide (S k ≤ c < _)%nat), (decide (k ≤ c < _)%nat);
        try done; lia.
Qed.

Lemma visible_hidden (s : Slide) : style_display s = "none" → visible s = false.
Proof. intros H. unfold visible. rewrite H. by apply bool_decide_eq_false_2; intros []. Qed.

Lemma consistent_visible_iff (p : Page) (st : State) (s0 : Slide) :
  consistent p st → page_slides p !! 0%nat = Some s0 → visible s0 = true →
  ∀ k s, slides st !! k = Some s → (visible s = true ↔ Z.of_nat k = current st).
Proof.
  intros H Hs0 Hv k s Hs. split.
  - intros Hvis. destruct (decide (Z.of_nat k = current st)) as [|Hne]; [done|].
    rewrite (visible_hidden s) in Hvis; [done|].
    by apply (cons_hidden _ _ H k).
  - intros Hk. apply (cons_shown _ _ H s0 Hs0 Hv).
    by rewrite <- Hk, Nat2Z.id.
Qed.

(** ** The markers of the rendered view *)

Lemma render_lookup (l : list Slide) (cur : Z) (k : nat) (c : Crumb) :
  render l cur !! k = Some c → ∃ s, l !! k = Some s ∧ c = make_crumb cur s k.
Proof.
  unfold render. rewrite list_lookup_imap.
  destruct (l !! k) as [s|]; simpl; [|done].
  intros [= <-]. by exists s.
Qed.

Lemma make_crumb_active (cur : Z) (s : Slide) (k : nat) :
  active (make_crumb cur s k) = true ↔ Z.of_nat k = cur.
Proof.
  unfold active, make_crumb. simpl.
  destruct (decide (Z.of_nat k = cur)) as [Heq|Hne]; simpl; split; done.
Qed.

Lemma bind_mret_unit (m : M unit) (st : State) :
  (m ;; mret tt) st = m st.
Proof.
  unfold mbind, M_bind, mret, M_ret.
  destruct (m st) as [[[[] st'] w]|]; [|done].
  by rewrite app_nil_r.
Qed.

Lemma display_writes_crumbs (l : list Crumb) :
  display_writes (WAppendCrumb <$> l) = [].
Proof. induction l as [|c l IH]; [done|]. simpl. exact IH. Qed.

Lemma moved_display_writes (st : State) (t : Z) :
  display_writes (moved_writes st t) = [(current st, "none"); (t, "")].
Proof.
  unfold moved_writes, display_writes. simpl.
  rewrite omap_app. fold (display_writes (WAppendCrumb <$> render
    (alter (with_display "") (Z.to_nat t)
       (alter (with_display "none") (Z.to_nat (current st)) (slides st))) t)).
  by rewrite display_writes_crumbs.
Qed.

(** ** The listeners stay within the calls *)

Lemma mret_bind_unit (m : M unit) (st : State) :
  (mret tt ;; m) st = m st.
Proof.
  unfold mbind, M_bind, mret, M_ret.
  by destruct (m st) as [[[[] st'] w]|].
Qed.

Lemma handle_click_crumb (st : State) (k : nat) :
  handle (ClickCrumb k) st
  = match breadcrumbs st !! k with
    | Some c => run_listeners (crumb_click c) st
    | None => Ok (tt, st, [])
    end.
Proof.
  simpl. unfold mbind at 1, M_bind at 1, get_breadcrumbs.
  destruct (breadcrumbs st !! k) as [c|]; [|done].
  by destruct (run_listeners (crumb_click c) st) as [[[[] st'] w]|].
Qed.

(** Every event either does nothing or is one of the calls. *)
Lemma handle_call (p : Page) (st : State) (e : Event) :
  consistent p st →
  handle e st = Ok (tt, st, []) ∨ ∃ c, handle e st = call c st.
Proof.
  intros H. destruct e as [| |k|key]; simpl.
  - right. by exists Prev.
  - right. by exists Next.
  - change (handle (ClickCrumb k) st = Ok (tt, st, [])
            ∨ ∃ c, handle (ClickCrumb k) st = call c st).
    rewrite handle_click_crumb.
    destruct (breadcrumbs st !! k) as [c|] eqn:Hc; [|by left].
    right. exists (GoTo (Z.of_nat k)).
    rewrite (cons_breadcrumbs _ _ H) in Hc.
    destruct (render_lookup _ _ _ _ Hc) as (s & _ & ->).
    apply bind_mret_unit.
  - destruct (decide (key = "ArrowRight")) as [->|Hr].
    + right. exists Next. simpl. apply bind_mret_unit.
    + destruct (decide (key = "ArrowLeft")) as [->|Hl].
      * right. exists Prev. simpl. apply mret_bind_unit.
      * by left.
Qed.

Lemma handle_reachable (p : Page) (st st' : State) (e : Event) (w : list Write) :
  reachable p st → handle e st = Ok (tt, st', w) → reachable p st'.
Proof.
  intros Hr He.
  destruct (handle_call p st e (reachable_consistent p st Hr)) as [Hs|[c Hc]].
  - rewrite Hs in He. by inversion He; subst.
  - rewrite Hc in He. by apply (reachable_call p st c st' w).
Qed.

(** On a page that does not itself hide its first slide, every reachable
    state has its index in range and exactly the current slide on show. *)
Lemma reachable_shows_current (p : Page) (st : State) (s0 : Slide) :
  page_slides p !! 0%nat = Some s0 → visible s0 = true → reachable p st →
  0 ≤ current st < slide_count st
  ∧ ∀ k s, slides st !! k = Some s →
           (visible s = true ↔ Z.of_nat k = current st).
Proof.
  intros Hs0 Hv Hr. pose proof (reachable_consistent p st Hr) as H. split.
  - apply (consistent_in_range p st H). intros Hnil. by rewrite Hnil in Hs0.
  - by apply (consistent_visible_iff p st s0).
Qed.

(** ** The scenarios of the specification, run on the model *)

Example scenario_A :
  summary (init_state deck5) = (0, [0%nat], [0%nat], true, false).
Proof. reflexivity. Qed.

Example scenario_B :
  summary <$> after [ClickPrev] (init_state deck5)
  = Some (0, [0%nat], [0%nat], true, false).
Proof. reflexivity. Qed.

Example scenario_C :
  summary <$> after [ClickNext; ClickNext; ClickNext] (init_state deck5)
  = Some (3, [3%nat], [3%nat], false, false).
Proof. vm_compute. reflexivity. Qed.

Example scenario_D :
  summary <$> after [ClickCrumb 4] (init_state deck5)
  = Some (4, [4%nat], [4%nat], false, true).
Proof. vm_compute. reflexivity. Qed.

Example scenario_E :
  summary <$> after [KeyDown "ArrowRight"; KeyDown "ArrowRight"]
                (init_state deck3)
  = Some (2, [2%nat], [2%nat], false, true)
  ∧ summary <$> after (replicate 4 (KeyDown "ArrowRight")) (init_state deck3)
    = Some (2, [2%nat], [2%nat], false, true).
Proof. split; vm_compute; reflexivity. Qed.

Example other_keys_ignored :
  handle (KeyDown "Enter") (init_state deck3) = Ok (tt, init_state deck3, []).
Proof. reflexivity. Qed.

Example labels_deck3 :
  crumb_label <$> breadcrumbs (init_state deck3)
  = [Some "Intro"; Some "Слайд 2"; Some "Слайд 3"].
Proof. vm_compute. reflexivity. Qed.

Example goTo_faults_outside :
  goTo 0 {| slides := [plain_slide]; prevBtn_disabled := false;
            nextBtn_disabled := false; breadcrumbs := []; current := 3 |}
  = TypeError.
Proof. reflexivity. Qed.

(** * The claims *)

(** ** Clamping *)

(** C1. On a page with at least one slide, in every state the controller
    can reach and for every integer [i], [goTo(i)] returns normally (no
    [TypeError]) and leaves [current] equal to [max(0, min(i, N-1))]. *)
Theorem goTo_clamps (p : Page) (st : State) (i : Z) :
  page_slides p ≠ [] → reachable p st →
  ∃ st' w,
    goTo i st = Ok (tt, st', w) ∧
    current st' = Z.max 0 (Z.min i (Z.of_nat (length (page_slides p)) - 1)).
Proof.
  intros _ Hr. pose proof (reachable_consistent p st Hr) as H.
  pose proof (consistent_count p st H) as HN.
  destruct (goTo_total p st i H) as [[Hgo Heq]|[Hgo Hne]].
  - exists st, []. split; [done|].
    rewrite <- Heq. unfold clamp. by rewrite HN.
  - exists (moved st (clamp st i)), (moved_writes st (clamp st i)).
    split; [done|]. simpl. unfold clamp. by rewrite HN.
Qed.

Lemma goTo_clamps_witness :
  page_slides deck5 ≠ [] ∧ reachable deck5 (init_state deck5) ∧
  ∃ st' w, goTo 7 (init_state deck5) = Ok (tt, st', w) ∧ current st' = 4.
Proof.
  split; [discriminate|].
  split; [eapply reachable_init; vm_compute; reflexivity|].
  apply (goTo_clamps deck5 (init_state deck5) 7).
  - discriminate.
  - eapply reachable_init. vm_compute. reflexivity.
Defined.

(** ** The no-op guard *)

(** C3. In every state, when the clamped target of [goTo(i)] equals
    [current] the call returns the very state it started from, so the
    current index, every slide's display, the breadcrumb view and both
    disabled flags are as before.  This covers [goTo(current)] in a state
    whose index is in range, [next()] at the last index and [prev()] at
    index 0. *)
Theorem noop_changes_nothing (st : State) :
  (∀ i, clamp st i = current st → ∃ w, goTo i st = Ok (tt, st, w))
  ∧ (0 ≤ current st < slide_count st →
     ∃ w, goTo (current st) st = Ok (tt, st, w))
  ∧ (0 ≤ current st → current st = slide_count st - 1 →
     ∃ w, next st = Ok (tt, st, w))
  ∧ (current st = 0 → ∃ w, prev st = Ok (tt, st, w)).
Proof.
  repeat split.
  - intros i Hi. exists []. by apply goTo_stays.
  - intros Hc. exists []. apply goTo_stays. unfold clamp. lia.
  - intros Hc Hlast. exists []. unfold next. rewrite bind_get_current.
    apply goTo_stays. unfold clamp. lia.
  - intros Hz. exists []. unfold prev. rewrite bind_get_current.
    apply goTo_stays. unfold clamp, slide_count. lia.
Qed.

Lemma noop_changes_nothing_witness :
  (∃ w, goTo (-3) (init_state deck5) = Ok (tt, init_state deck5, w))
  ∧ (∃ w, goTo 0 (init_state deck5) = Ok (tt, init_state deck5, w))
  ∧ (∃ w, next (init_state (page_of [plain_slide]))
          = Ok (tt, init_state (page_of [plain_slide]), w))
  ∧ (∃ w, prev (init_state deck5) = Ok (tt, init_state deck5, w)).
Proof.
  split; [|split; [|split]].
  - apply (proj1 (noop_changes_nothing (init_state deck5)) (-3)).
    vm_compute. reflexivity.
  - apply (proj1 (proj2 (noop_changes_nothing (init_state deck5)))).
    vm_compute. split; [discriminate|reflexivity].
  - apply (proj1 (proj2 (proj2
             (noop_changes_nothing (init_state (page_of [plain_slide])))))).
    + vm_compute. discriminate.
    + vm_compute. reflexivity.
  - apply (proj2 (proj2 (proj2 (noop_changes_nothing (init_state deck5))))).
    vm_compute. reflexivity.
Defined.

(** C10. On a no-op navigation the call performs no write at all: its log
    is empty, so the breadcrumb container is neither cleared nor refilled
    and neither disabled flag is assigned. *)
Theorem noop_writes_nothing (st : State) (i : Z) :
  clamp st i = current st → ∃ st', goTo i st = Ok (tt, st', []).
Proof. intros Hi. exists st. by apply goTo_stays. Qed.

Lemma noop_writes_nothing_witness :
  ∃ st', goTo 9 (moved (init_state deck5) 4) = Ok (tt, st', []).
Proof.
  apply (noop_writes_nothing (moved (init_state deck5) 4) 9).
  vm_compute. reflexivity.
Defined.

(** ** [next] and [prev] *)

(** C7. In every state [next()] is [goTo(current + 1)] and [prev()] is
    [goTo(current - 1)]: the same result, state and writes, faults
    included. *)
Theorem next_prev_delegate (st : State) :
  next st = goTo (current st + 1) st ∧ prev st = goTo (current st - 1) st.
Proof. split; apply bind_get_current. Qed.

(** ** The empty deck *)

(** C9. On a page without slides, in every reachable state and for every
    integer [i]: the clamped target is 0, [current] is 0, and [goTo(i)]
    returns normally with the state unchanged and nothing written. *)
Theorem empty_deck_goTo (p : Page) (st : State) (i : Z) :
  page_slides p = [] → reachable p st →
  clamp st i = 0 ∧ current st = 0 ∧ goTo i st = Ok (tt, st, []).
Proof.
  intros Hp Hr. pose proof (reachable_consistent p st Hr) as H.
  pose proof (consistent_count p st H) as HN. rewrite Hp in HN. simpl in HN.
  pose proof (cons_range _ _ H) as Hc. rewrite HN in Hc.
  assert (Hcl : clamp st i = 0) by (by apply clamp_stays_when_empty).
  assert (Hcur : current st = 0) by lia.
  repeat split; [done..|]. apply goTo_stays. lia.
Qed.

Lemma empty_deck_goTo_witness :
  clamp (init_state empty_deck) 2 = 0 ∧ current (init_state empty_deck) = 0 ∧
  goTo 2 (init_state empty_deck) = Ok (tt, init_state empty_deck, []).
Proof.
  apply (empty_deck_goTo empty_deck (init_state empty_deck) 2).
  - reflexivity.
  - eapply reachable_init. vm_compute. reflexivity.
Defined.

(** ** One slide on show *)

(** C2, as the code has it.  On a page with at least one slide, every
    reachable state has [0 <= current < N] with [N] the page's slide count,
    and every slide other than the one at [current] is hidden.  When the
    page's markup does not itself hide the first slide, the slide at
    [current] is shown as well, so the slides on show are exactly the one
    at [current]. *)
Theorem one_slide_visible (p : Page) (st : State) :
  page_slides p ≠ [] → reachable p st →
  slide_count st = Z.of_nat (length (page_slides p))
  ∧ 0 ≤ current st < slide_count st
  ∧ (∀ k s, slides st !! k = Some s → Z.of_nat k ≠ current st →
            visible s = false)
  ∧ (∀ s0, page_slides p !! 0%nat = Some s0 → visible s0 = true →
           visible_indices (slides st) = [Z.to_nat (current st)]).
Proof.
  intros Hne Hr. pose proof (reachable_consistent p st Hr) as H.
  pose proof (consistent_in_range p st H Hne) as Hc.
  split; [by apply consistent_count|].
  split; [done|]. split.
  - intros k s Hs Hk. apply visible_hidden. by apply (cons_hidden _ _ H k).
  - intros s0 Hs0 Hv. unfold visible_indices.
    rewrite (positions_single visible (slides st) 0 (Z.to_nat (current st))).
    + unfold slide_count in Hc. destruct (decide _); [done|lia].
    + intros i x Hx.
      rewrite (consistent_visible_iff p st s0 H Hs0 Hv i x Hx). lia.
Qed.

Lemma one_slide_visible_witness :
  page_slides deck3 ≠ [] ∧ reachable deck3 (moved (init_state deck3) 2) ∧
  current (moved (init_state deck3) 2) = 2 ∧
  visible_indices (slides (moved (init_state deck3) 2)) = [2%nat].
Proof.
  assert (Hr : reachable deck3 (moved (init_state deck3) 2)).
  { eapply (reachable_call deck3 (init_state deck3) (GoTo 5)).
    - eapply reachable_init. vm_compute. reflexivity.
    - vm_compute. reflexivity. }
  split; [discriminate|]. split; [exact Hr|]. split; [reflexivity|].
  refine (proj2 (proj2 (proj2
    (one_slide_visible deck3 (moved (init_state deck3) 2) _ Hr))) _ _ _).
  - discriminate.
  - reflexivity.
  - vm_compute. reflexivity.
Defined.

(** C2 as stated fails: on [hidden_first], whose markup hides the first
    slide, initialization leaves no slide on show. *)
Lemma hidden_first_counterexample :
  ∃ st w,
    init hidden_first = Ok (tt, st, w)
    ∧ page_slides hidden_first ≠ []
    ∧ reachable hidden_first st
    ∧ current st = 0
    ∧ visible_indices (slides st) = []
    ∧ visible_indices (slides st) ≠ [Z.to_nat (current st)].
Proof.
  eexists _, _. split; [vm_compute; reflexivity|].
  split; [discriminate|].
  split; [eapply reachable_init; vm_compute; reflexivity|].
  split; [reflexivity|]. split; [reflexivity|]. vm_compute. discriminate.
Qed.

(** ** What a move changes *)

(** C4, as the code has it.  In a state whose index is in range, a [goTo]
    whose clamped target differs from [current] returns normally; its
    display assignments are exactly two, ['none'] to the slide at the old
    index and [''] to the slide at the target; afterwards the former is
    hidden and the latter shown, and every other slide is as it was.  When
    exactly the slide at [current] was on show before the call (by
    [reachable_shows_current], every reachable state of a page that shows
    its first slide), the old slide goes from shown to hidden and the
    target from hidden to shown: one visibility flips off and one on. *)
Theorem goTo_flips_two (st : State) (i : Z) :
  0 ≤ current st < slide_count st →
  clamp st i ≠ current st →
  ∃ st' w,
    goTo i st = Ok (tt, st', w)
    ∧ current st' = clamp st i
    ∧ length (slides st') = length (slides st)
    ∧ display_writes w = [(current st, "none"); (clamp st i, "")]
    ∧ (∀ k s s', slides st !! k = Some s → slides st' !! k = Some s' →
         (Z.of_nat k = current st → visible s' = false)
         ∧ (Z.of_nat k = clamp st i → visible s' = true)
         ∧ (Z.of_nat k ≠ current st → Z.of_nat k ≠ clamp st i → s' = s))
    ∧ ((∀ k s, slides st !! k = Some s →
               (visible s = true ↔ Z.of_nat k = current st)) →
       ∀ k s s', slides st !! k = Some s → slides st' !! k = Some s' →
         (Z.of_nat k = current st → visible s = true ∧ visible s' = false)
         ∧ (Z.of_nat k = clamp st i → visible s = false ∧ visible s' = true)
         ∧ (Z.of_nat k ≠ current st → Z.of_nat k ≠ clamp st i →
            visible s' = visible s)).
Proof.
  intros Hc Hne.
  assert (Ht : 0 ≤ clamp st i < slide_count st) by (apply clamp_range; lia).
  assert (Hold : ∀ k s', slides (moved st (clamp st i)) !! k = Some s' →
            Z.of_nat k = current st → visible s' = false).
  { intros k s' Hs' Hk. apply visible_hidden.
    apply (moved_lookup_source st (clamp st i)); try lia.
    by replace (Z.to_nat (current st)) with k by lia. }
  assert (Hnew : ∀ k s', slides (moved st (clamp st i)) !! k = Some s' →
            Z.of_nat k = clamp st i → visible s' = true).
  { intros k s' Hs' Hk.
    replace k with (Z.to_nat (clamp st i)) in Hs' by lia.
    apply moved_lookup_target in Hs'.
    unfold visible. rewrite Hs'. by apply bool_decide_eq_true_2. }
  assert (Hrest : ∀ k s s', slides st !! k = Some s →
            slides (moved st (clamp st i)) !! k = Some s' →
            Z.of_nat k ≠ current st → Z.of_nat k ≠ clamp st i → s' = s).
  { intros k s s' Hs Hs' Hkc Hkt.
    rewrite moved_lookup_other in Hs' by lia. congruence. }
  exists (moved st (clamp st i)), (moved_writes st (clamp st i)).
  split; [by apply goTo_moves|]. split; [done|]. split.
  { unfold moved. simpl. by rewrite !length_alter. }
  split; [apply moved_display_writes|]. split.
  - intros k s s' Hs Hs'. split; [by apply Hold|].
    split; [by apply Hnew|by apply Hrest].
  - intros Hvis k s s' Hs Hs'. repeat split.
    + by apply (Hvis k s).
    + by apply (Hold k).
    + destruct (visible s) eqn:Hv; [|done].
      apply (Hvis k s Hs) in Hv. lia.
    + by apply (Hnew k).
    + intros Hkc Hkt. by rewrite (Hrest k s s').
Qed.

Lemma goTo_flips_two_witness :
  ∃ st' w,
    goTo 3 (moved (init_state deck5) 2) = Ok (tt, st', w)
    ∧ current st' = 3
    ∧ display_writes w = [(2, "none"); (3, "")]
    ∧ ∀ k s s', slides (moved (init_state deck5) 2) !! k = Some s →
        slides st' !! k = Some s' →
        (Z.of_nat k = 2 → visible s = true ∧ visible s' = false)
        ∧ (Z.of_nat k = 3 → visible s = false ∧ visible s' = true)
        ∧ (Z.of_nat k ≠ 2 → Z.of_nat k ≠ 3 → visible s' = visible s).
Proof.
  destruct (goTo_flips_two (moved (init_state deck5) 2) 3)
    as (st' & w & Hgo & Hcur & _ & Hw & _ & Hflip).
  - vm_compute. split; [discriminate|reflexivity].
  - vm_compute. discriminate.
  - exists st', w. split; [exact Hgo|]. split; [exact Hcur|].
    split; [exact Hw|]. apply Hflip.
    intros k s Hs.
    do 5 (destruct k as [|k];
          [inversion Hs; subst s; vm_compute; split; intros;
           (reflexivity || discriminate || lia)|]).
    inversion Hs.
Defined.

(** C4 as stated fails: on [hidden_first] the first move away from slide 0
    turns one slide on and none off, the old slide being hidden already. *)
Lemma hidden_first_move_counterexample :
  ∃ st w st' w',
    init hidden_first = Ok (tt, st, w)
    ∧ reachable hidden_first st
    ∧ clamp st 1 ≠ current st
    ∧ goTo 1 st = Ok (tt, st', w')
    ∧ visible <$> slides st = [false; false]
    ∧ visible <$> slides st' = [false; true].
Proof.
  eexists _, _, _, _. split; [vm_compute; reflexivity|].
  split; [eapply reachable_init; vm_compute; reflexivity|].
  split; [vm_compute; discriminate|].
  split; [vm_compute; reflexivity|].
  split; vm_compute; reflexivity.
Qed.

(** ** The two controls *)

(** C5. Initialization ends by assigning both disabled flags; in every
    reachable state the previous control is disabled exactly when
    [current = 0] and the next control exactly when [current = N - 1]; and
    in every reachable state, every [goTo(i)] whose clamped target differs
    from [current] returns normally, moves to that target and ends by
    assigning both flags again, to the values the new index calls for. *)
Theorem nav_flags (p : Page) :
  (∃ st w,
     init p = Ok (tt, st,
                  w ++ [WPrevDisabled (bool_decide (current st = 0));
                        WNextDisabled
                          (bool_decide (current st = slide_count st - 1))]))
  ∧ (∀ st, reachable p st →
       slide_count st = Z.of_nat (length (page_slides p))
       ∧ (prevBtn_disabled st = true ↔ current st = 0)
       ∧ (nextBtn_disabled st = true ↔ current st = slide_count st - 1))
  ∧ (∀ st i,
       reachable p st → clamp st i ≠ current st →
       ∃ st' w0,
         goTo i st
         = Ok (tt, st',
               w0 ++ [WPrevDisabled (bool_decide (current st' = 0));
                      WNextDisabled
                        (bool_decide (current st' = slide_count st' - 1))])
         ∧ current st' = clamp st i).
Proof.
  split; [|split].
  - destruct (init_run p) as [w Hw].
    exists (init_state p),
      (w ++ WClearBreadcrumbs :: (WAppendCrumb <$> breadcrumbs (init_state p))).
    rewrite Hw. do 2 f_equal. rewrite <- app_assoc. simpl. reflexivity.
  - intros st Hr. pose proof (reachable_consistent p st Hr) as H.
    split; [by apply consistent_count|].
    rewrite (cons_prev _ _ H), (cons_next _ _ H).
    by rewrite !bool_decide_eq_true.
  - intros st i Hr Hne.
    pose proof (reachable_consistent p st Hr) as H.
    exists (moved st (clamp st i)),
      ([WDisplay (current st) "none"; WDisplay (clamp st i) "";
        WClearBreadcrumbs]
       ++ (WAppendCrumb <$> breadcrumbs (moved st (clamp st i)))).
    split; [|done].
    rewrite (goTo_moves st i Hne (moved_in_range p st i H Hne)).
    unfold moved_writes. rewrite <- app_assoc. reflexivity.
Qed.

Lemma nav_flags_witness :
  (prevBtn_disabled (init_state deck5) = true ↔ current (init_state deck5) = 0)
  ∧ (nextBtn_disabled (moved (init_state deck5) 4) = true
     ↔ current (moved (init_state deck5) 4) = 5 - 1)
  ∧ ∃ st' w0,
      goTo 4 (init_state deck5)
      = Ok (tt, st',
            w0 ++ [WPrevDisabled (bool_decide (current st' = 0));
                   WNextDisabled
                     (bool_decide (current st' = slide_count st' - 1))])
      ∧ current st' = 4.
Proof.
  assert (Hr : reachable deck5 (init_state deck5)).
  { eapply reachable_init. vm_compute. reflexivity. }
  assert (Hr' : reachable deck5 (moved (init_state deck5) 4)).
  { eapply (reachable_call deck5 (init_state deck5) (GoTo 4)); [exact Hr|].
    vm_compute. reflexivity. }
  split; [|split].
  - exact (proj1 (proj2 (proj1 (proj2 (nav_flags deck5)) _ Hr))).
  - exact (proj2 (proj2 (proj1 (proj2 (nav_flags deck5)) _ Hr'))).
  - apply (proj2 (proj2 (nav_flags deck5)) (init_state deck5) 4 Hr).
    vm_compute. discriminate.
Defined.

(** ** The breadcrumb view *)

(** C6. In every reachable state the breadcrumb view is [render] of the
    slides and the current index: it has one marker per slide, in slide
    order; the marker at position [k] is flagged active exactly when
    [k = current], is labelled with slide [k]'s title or the generated
    label, and a click on it runs [goTo(k)].  On a page with at least one
    slide the active markers are exactly the one at [current].  Every
    [goTo] that changes [current] clears the container and appends the
    whole new view. *)
Theorem breadcrumbs_follow (p : Page) (st : State) :
  reachable p st →
  length (breadcrumbs st) = length (slides st)
  ∧ breadcrumbs st = render (slides st) (current st)
  ∧ (∀ k c, breadcrumbs st !! k = Some c →
       (active c = true ↔ Z.of_nat k = current st)
       ∧ (∃ s, slides st !! k = Some s ∧
               crumb_label c
               = Some (js_or (dataset_title s)
                         ("Слайд " +:+ pretty (k + 1)%nat)))
       ∧ handle (ClickCrumb k) st = goTo (Z.of_nat k) st)
  ∧ (page_slides p ≠ [] →
     active_indices (breadcrumbs st) = [Z.to_nat (current st)])
  ∧ (∀ i st' w,
       goTo i st = Ok (tt, st', w) → current st' ≠ current st →
       ∃ w0 w1,
         w = w0 ++ WClearBreadcrumbs
                :: (WAppendCrumb <$> render (slides st') (current st'))
                ++ w1).
Proof.
  intros Hr. pose proof (reachable_consistent p st Hr) as H.
  pose proof (cons_breadcrumbs _ _ H) as Hb.
  assert (Hmk : ∀ k c, breadcrumbs st !! k = Some c →
            ∃ s, slides st !! k = Some s ∧ c = make_crumb (current st) s k).
  { intros k c Hc. rewrite Hb in Hc. by apply render_lookup. }
  split; [rewrite Hb; unfold render; by rewrite length_imap|].
  split; [done|]. split; [|split].
  - intros k c Hc. destruct (Hmk k c Hc) as (s & Hs & ->).
    split; [apply make_crumb_active|]. split; [by exists s|].
    rewrite handle_click_crumb, Hc. apply bind_mret_unit.
  - intros Hne. pose proof (consistent_in_range p st H Hne) as Hc.
    unfold active_indices.
    rewrite (positions_single active (breadcrumbs st) 0
               (Z.to_nat (current st))).
    + rewrite Hb. unfold render. rewrite length_imap.
      unfold slide_count in Hc. destruct (decide _); [done|lia].
    + intros k c Hkc. destruct (Hmk k c Hkc) as (s & _ & ->).
      rewrite make_crumb_active. lia.
  - intros i st' w Hgo Hch.
    destruct (goTo_total p st i H) as [[Hgo' _]|[Hgo' _]];
      rewrite Hgo' in Hgo; inversion Hgo; subst; [done|].
    exists [WDisplay (current st) "none"; WDisplay (clamp st i) ""].
    eexists. unfold moved_writes. simpl. reflexivity.
Qed.

Lemma breadcrumbs_follow_witness :
  length (breadcrumbs (moved (init_state deck3) 1)) = 3%nat
  ∧ active_indices (breadcrumbs (moved (init_state deck3) 1)) = [1%nat]
  ∧ handle (ClickCrumb 2) (moved (init_state deck3) 1)
    = goTo 2 (moved (init_state deck3) 1).
Proof.
  assert (Hr : reachable deck3 (moved (init_state deck3) 1)).
  { eapply (reachable_call deck3 (init_state deck3) Next).
    - eapply reachable_init. vm_compute. reflexivity.
    - vm_compute. reflexivity. }
  pose proof (breadcrumbs_follow deck3 (moved (init_state deck3) 1) Hr)
    as (Hlen & _ & Hk & Hact & _).
  split; [exact Hlen|]. split.
  - apply Hact. discriminate.
  - destruct (Hk 2%nat
      (make_crumb 1 {| dataset_title := Some ""; style_display := "none" |} 2))
      as (_ & _ & Hclick); [reflexivity|exact Hclick].
Defined.

(** ** The generated label *)

(** C8, as the code has it.  In every reachable state, the marker of a
    slide at position [k] that has no [data-title] is labelled with the
    Russian word "Слайд", a space and [k + 1] in decimal. *)
Theorem fallback_label (p : Page) (st : State) (k : nat) (s : Slide) :
  reachable p st → slides st !! k = Some s → dataset_title s = None →
  ∃ c, breadcrumbs st !! k = Some c ∧
       crumb_label c = Some ("Слайд " +:+ pretty (k + 1)%nat).
Proof.
  intros Hr Hs Ht. pose proof (reachable_consistent p st Hr) as H.
  exists (make_crumb (current st) s k). split.
  - rewrite (cons_breadcrumbs _ _ H). unfold render.
    by rewrite list_lookup_imap, Hs.
  - unfold crumb_label, make_crumb. simpl. by rewrite Ht.
Qed.

Lemma fallback_label_witness :
  ∃ c, breadcrumbs (init_state deck3) !! 1%nat = Some c ∧
       crumb_label c = Some "Слайд 2".
Proof.
  apply (fallback_label deck3 (init_state deck3) 1
           {| dataset_title := None; style_display := "none" |}).
  - eapply reachable_init. vm_compute. reflexivity.
  - reflexivity.
  - reflexivity.
Defined.

(** C8 as stated fails: the generated label of the first slide of [deck5]
    is "Слайд 1", not "Slide 1". *)
Lemma fallback_label_counterexample :
  ∃ st w s c,
    init deck5 = Ok (tt, st, w)
    ∧ slides st !! 0%nat = Some s ∧ dataset_title s = None
    ∧ breadcrumbs st !! 0%nat = Some c
    ∧ crumb_label c = Some "Слайд 1"
    ∧ crumb_label c ≠ Some ("Slide " +:+ pretty (0 + 1)%nat).
Proof.
  eexists _, _, _, _. split; [vm_compute; reflexivity|].
  split; [reflexivity|]. split; [reflexivity|].
  split; [reflexivity|]. split; [reflexivity|]. vm_compute. discriminate.
Qed.

(** * Further properties of the script *)

(** ** Shared lemmas *)

Lemma goTo_result (p : Page) (st : State) (i : Z) :
  consistent p st →
  ∃ st' w,
    goTo i st = Ok (tt, st', w) ∧ consistent p st'
    ∧ current st' = clamp st i ∧ slide_count st' = slide_count st.
Proof.
  intros H. destruct (goTo_total p st i H) as [[Hgo Heq]|[Hgo Hne]].
  - exists st, []. split; [done|]. split; [done|]. by split.
  - exists (moved st (clamp st i)), (moved_writes st (clamp st i)).
    split; [done|]. split; [by apply consistent_moved|].
    split; [done|apply moved_count].
Qed.

Lemma call_result (p : Page) (st : State) (c : Call) :
  consistent p st →
  ∃ st' w, call c st = Ok (tt, st', w) ∧ consistent p st'
           ∧ slide_count st' = slide_count st.
Proof.
  intros H. destruct (call_goTo c st) as [i ->].
  destruct (goTo_result p st i H) as (st' & w & Hgo & H' & _ & Hn).
  by exists st', w.
Qed.

Lemma handle_result (p : Page) (st : State) (e : Event) :
  consistent p st →
  ∃ st' w, handle e st = Ok (tt, st', w) ∧ consistent p st'
           ∧ slide_count st' = slide_count st.
Proof.
  intros H. destruct (handle_call p st e H) as [Hs|[c Hc]].
  - by exists st, [].
  - rewrite Hc. by apply call_result.
Qed.

(** An event in a state where every target clamps to the current index
    changes nothing and writes nothing. *)
Lemma handle_stays (p : Page) (st : State) (e : Event) :
  consistent p st → (∀ i, clamp st i = current st) →
  handle e st = Ok (tt, st, []).
Proof.
  intros H Hall. destruct (handle_call p st e H) as [Hs|[c Hc]]; [done|].
  rewrite Hc. destruct (call_goTo c st) as [i ->].
  apply goTo_stays, Hall.
Qed.

Lemma titles_lookup (l1 l2 : list Slide) (k : nat) (s : Slide) :
  dataset_title <$> l1 = dataset_title <$> l2 → l1 !! k = Some s →
  ∃ s', l2 !! k = Some s' ∧ dataset_title s' = dataset_title s.
Proof.
  intros Ht Hs.
  assert (E : (dataset_title <$> l1) !! k = (dataset_title <$> l2) !! k)
    by (by rewrite Ht).
  rewrite !list_lookup_fmap, Hs in E.
  destruct (l2 !! k) as [s'|]; simpl in E; [|done].
  exists s'. split; [done|]. by inversion E.
Qed.

Lemma render_titles (l1 l2 : list Slide) (cur : Z) :
  dataset_title <$> l1 = dataset_title <$> l2 → render l1 cur = render l2 cur.
Proof.
  intros Ht. apply list_eq. intros k. unfold render.
  rewrite !list_lookup_imap.
  destruct (l1 !! k) as [s|] eqn:E1.
  - destruct (titles_lookup l1 l2 k s Ht E1) as (s' & -> & Hs').
    simpl. f_equal. unfold make_crumb. by rewrite Hs'.
  - destruct (l2 !! k) as [s'|] eqn:E2; [|done].
    destruct (titles_lookup l2 l1 k s' (eq_sym Ht) E2) as (s & Hs & _).
    congruence.
Qed.

Lemma after_cons (e : Event) (es : list Event) (st st' : State) (w : list Write) :
  handle e st = Ok (tt, st', w) → after (e :: es) st = after es st'.
Proof. intros H. simpl. by rewrite H. Qed.

Lemma init_Ok (p : Page) (st : State) (w : list Write) :
  init p = Ok (tt, st, w) → st = init_state p.
Proof.
  destruct (init_run p) as [w' Hw]. rewrite Hw. by intros [= <- _].
Qed.

(** ** The listeners *)

(** X1. From any reachable state, every sequence of events (button clicks,
    breadcrumb clicks on any position, key presses of any key) runs to the
    end without a [TypeError], and the state it ends in is reachable. *)
Theorem events_never_fault (p : Page) (es : list Event) :
  ∀ st, reachable p st → ∃ st', after es st = Some st' ∧ reachable p st'.
Proof.
  induction es as [|e es IH]; intros st Hr.
  - by exists st.
  - destruct (handle_result p st e (reachable_consistent p st Hr))
      as (st1 & w & He & _ & _).
    rewrite (after_cons e es st st1 w He).
    apply IH. by apply (handle_reachable p st st1 e w).
Qed.

Lemma events_never_fault_witness :
  ∃ st',
    after [ClickNext; KeyDown "Tab"; ClickCrumb 7; ClickPrev; ClickPrev;
           KeyDown "ArrowLeft"] (init_state deck3) = Some st'
    ∧ reachable deck3 st'.
Proof.
  apply (events_never_fault deck3).
  eapply reachable_init. vm_compute. reflexivity.
Defined.

(** X2. A key press runs at most one call, in every state: ArrowRight is
    [next()], ArrowLeft is [prev()], and any other key leaves the state as
    it is and writes nothing. *)
Theorem keydown_dispatch (st : State) (key : string) :
  handle (KeyDown key) st
  = if decide (key = "ArrowRight") then next st
    else if decide (key = "ArrowLeft") then prev st
    else Ok (tt, st, []).
Proof.
  simpl. destruct (decide (key = "ArrowRight")) as [->|Hr].
  - destruct (decide ("ArrowRight" = "ArrowLeft")); [done|].
    apply bind_mret_unit.
  - destruct (decide (key = "ArrowLeft")) as [->|Hl]; [|done].
    apply mret_bind_unit.
Qed.

(** ** Initialization *)

(** X3. Initialization never faults, and the state it leaves depends on the
    page's slides alone: whatever the breadcrumb container held and
    whatever the two disabled flags were is overwritten.  The container
    ends with one marker per slide. *)
Theorem init_overwrites_page_state (p q : Page) :
  page_slides p = page_slides q →
  ∃ st w w',
    init p = Ok (tt, st, w) ∧ init q = Ok (tt, st, w')
    ∧ length (breadcrumbs st) = length (page_slides p).
Proof.
  intros Hpq. destruct (init_run p) as [w Hw], (init_run q) as [w' Hw'].
  exists (init_state p). eexists. eexists.
  split; [exact Hw|]. split.
  - rewrite Hw'. unfold init_state. by rewrite Hpq.
  - unfold init_state, render, hide_rest. simpl. by rewrite !length_imap.
Qed.

Lemma init_overwrites_page_state_witness :
  ∃ st w w',
    init deck3 = Ok (tt, st, w)
    ∧ init {| page_slides := page_slides deck3;
              page_prev_disabled := false; page_next_disabled := true;
              page_breadcrumbs := [make_crumb 9 plain_slide 4] |}
      = Ok (tt, st, w')
    ∧ length (breadcrumbs st) = length (page_slides deck3).
Proof.
  apply (init_overwrites_page_state deck3
           {| page_slides := page_slides deck3;
              page_prev_disabled := false; page_next_disabled := true;
              page_breadcrumbs := [make_crumb 9 plain_slide 4] |}).
  reflexivity.
Defined.

(** X4. Initialization starts at index 0, keeps every slide in place,
    leaves the first slide's display exactly as the page had it and sets
    the display of every other slide to ['none']; titles are untouched. *)
Theorem init_hides_all_but_first (p : Page) (st : State) (w : list Write) :
  init p = Ok (tt, st, w) →
  current st = 0
  ∧ length (slides st) = length (page_slides p)
  ∧ ∀ k s, page_slides p !! k = Some s →
      slides st !! k
      = Some (if decide (k = 0%nat) then s else with_display "none" s).
Proof.
  intros Hi. rewrite (init_Ok p st w Hi).
  unfold init_state, hide_rest. simpl.
  split; [done|]. split; [by rewrite length_imap|].
  intros k s Hs. rewrite list_lookup_imap, Hs. simpl.
  destruct (decide (k ≠ 0%nat)), (decide (k = 0%nat)); done.
Qed.

Lemma init_hides_all_but_first_witness :
  ∃ st,
    current st = 0
    ∧ style_display <$> slides st = ["none"; "none"]
    ∧ slides st !! 1%nat = Some (with_display "none" plain_slide).
Proof.
  destruct (init_hides_all_but_first hidden_first (init_state hidden_first)
              [WDisplay 1 "none"; WClearBreadcrumbs;
               WAppendCrumb (make_crumb 0 plain_slide 0);
               WAppendCrumb (make_crumb 0 plain_slide 1);
               WPrevDisabled true; WNextDisabled false])
    as (Hc & _ & Hk).
  - vm_compute. reflexivity.
  - exists (init_state hidden_first). split; [exact Hc|].
    split; [reflexivity|]. apply (Hk 1%nat plain_slide). reflexivity.
Defined.

(** ** Titles and labels *)

(** X5. Nothing the script does changes a title or a label: in every
    reachable state the slides carry the page's titles, in the page's
    order, and the labels of the markers are those computed from the page's
    titles and positions. *)
Theorem labels_never_change (p : Page) (st : State) :
  reachable p st →
  dataset_title <$> slides st = dataset_title <$> page_slides p
  ∧ crumb_label <$> breadcrumbs st
    = imap (λ k s, Some (js_or (dataset_title s)
                           ("Слайд " +:+ pretty (k + 1)%nat)))
        (page_slides p).
Proof.
  intros Hr. pose proof (reachable_consistent p st Hr) as H.
  split; [apply (cons_titles _ _ H)|].
  rewrite (cons_breadcrumbs _ _ H).
  rewrite (render_titles (slides st) (page_slides p) _ (cons_titles _ _ H)).
  unfold render. rewrite fmap_imap. by apply imap_ext.
Qed.

Lemma labels_never_change_witness :
  crumb_label <$> breadcrumbs (moved (init_state deck3) 2)
  = [Some "Intro"; Some "Слайд 2"; Some "Слайд 3"].
Proof.
  refine (proj2 (labels_never_change deck3 (moved (init_state deck3) 2) _)).
  eapply (reachable_call deck3 (init_state deck3) (GoTo 2)).
  - eapply reachable_init. vm_compute. reflexivity.
  - vm_compute. reflexivity.
Defined.

(** X6. The marker of a slide that has a [data-title] is labelled with that
    title, unless the title is the empty string: then the label is the
    generated one, as for a slide without title. *)
Theorem titled_label (p : Page) (st : State) (k : nat) (s : Slide) (t : string) :
  reachable p st → slides st !! k = Some s → dataset_title s = Some t →
  ∃ c, breadcrumbs st !! k = Some c ∧
       crumb_label c
       = Some (if decide (t = "") then "Слайд " +:+ pretty (k + 1)%nat else t).
Proof.
  intros Hr Hs Ht. pose proof (reachable_consistent p st Hr) as H.
  exists (make_crumb (current st) s k). split.
  - rewrite (cons_breadcrumbs _ _ H). unfold render.
    by rewrite list_lookup_imap, Hs.
  - unfold crumb_label, make_crumb. simpl. by rewrite Ht.
Qed.

Lemma titled_label_witness :
  (∃ c, breadcrumbs (init_state deck3) !! 0%nat = Some c ∧
        crumb_label c = Some "Intro")
  ∧ (∃ c, breadcrumbs (init_state deck3) !! 2%nat = Some c ∧
          crumb_label c = Some "Слайд 3").
Proof.
  assert (Hr : reachable deck3 (init_state deck3)).
  { eapply reachable_init. vm_compute. reflexivity. }
  split.
  - apply (titled_label deck3 (init_state deck3) 0
             {| dataset_title := Some "Intro"; style_display := "" |} "Intro"
             Hr); reflexivity.
  - apply (titled_label deck3 (init_state deck3) 2
             {| dataset_title := Some ""; style_display := "none" |} ""
             Hr); reflexivity.
Defined.

(** ** [goTo] composed with itself *)

(** X7. [goTo] is idempotent: in a reachable state, repeating a call with
    the same argument right after it returned changes nothing and writes
    nothing. *)
Theorem goTo_twice (p : Page) (st st' : State) (i : Z) (w : list Write) :
  reachable p st → goTo i st = Ok (tt, st', w) →
  goTo i st' = Ok (tt, st', []).
Proof.
  intros Hr Hgo.
  destruct (goTo_result p st i (reachable_consistent p st Hr))
    as (st1 & w1 & Hgo1 & _ & Hc & Hn).
  rewrite Hgo in Hgo1. inversion Hgo1; subst st1 w1.
  apply goTo_stays. unfold clamp in *. by rewrite Hn.
Qed.

Lemma goTo_twice_witness :
  goTo 9 (moved (init_state deck5) 4) = Ok (tt, moved (init_state deck5) 4, []).
Proof.
  apply (goTo_twice deck5 (init_state deck5) (moved (init_state deck5) 4) 9
           (moved_writes (init_state deck5) 4)).
  - eapply reachable_init. vm_compute. reflexivity.
  - vm_compute. reflexivity.
Defined.

(** ** The view as a function of the index *)

Lemma consistent_same_view (p : Page) (st1 st2 : State) :
  consistent p st1 → consistent p st2 → current st1 = current st2 →
  breadcrumbs st1 = breadcrumbs st2
  ∧ prevBtn_disabled st1 = prevBtn_disabled st2
  ∧ nextBtn_disabled st1 = nextBtn_disabled st2.
Proof.
  intros H1 H2 Hc. split; [|split].
  - rewrite (cons_breadcrumbs _ _ H1), (cons_breadcrumbs _ _ H2), Hc.
    apply render_titles.
    by rewrite (cons_titles _ _ H1), (cons_titles _ _ H2).
  - by rewrite (cons_prev _ _ H1), (cons_prev _ _ H2), Hc.
  - rewrite (cons_next _ _ H1), (cons_next _ _ H2), Hc.
    by rewrite (consistent_count p st1 H1), (consistent_count p st2 H2).
Qed.

(** X8. What is on screen depends on the index alone, not on the path that
    led there: two reachable states with the same [current] have the same
    breadcrumb view and the same disabled flags, and, on a page that shows
    its first slide, the same slides on show. *)
Theorem view_determined_by_index (p : Page) (st1 st2 : State) :
  reachable p st1 → reachable p st2 → current st1 = current st2 →
  breadcrumbs st1 = breadcrumbs st2
  ∧ prevBtn_disabled st1 = prevBtn_disabled st2
  ∧ nextBtn_disabled st1 = nextBtn_disabled st2
  ∧ (∀ s0, page_slides p !! 0%nat = Some s0 → visible s0 = true →
           visible <$> slides st1 = visible <$> slides st2).
Proof.
  intros Hr1 Hr2 Hc.
  pose proof (reachable_consistent p st1 Hr1) as H1.
  pose proof (reachable_consistent p st2 Hr2) as H2.
  destruct (consistent_same_view p st1 st2 H1 H2 Hc) as (Hb & Hp & Hn).
  split; [done|]. split; [done|]. split; [done|].
  intros s0 Hs0 Hv. apply list_eq. intros k. rewrite !list_lookup_fmap.
  assert (Ht : dataset_title <$> slides st1 = dataset_title <$> slides st2)
    by (by rewrite (cons_titles _ _ H1), (cons_titles _ _ H2)).
  destruct (slides st1 !! k) as [x1|] eqn:E1.
  - destruct (titles_lookup _ _ k x1 Ht E1) as (x2 & E2 & _).
    rewrite E2. simpl. f_equal.
    pose proof (consistent_visible_iff p st1 s0 H1 Hs0 Hv k x1 E1) as I1.
    pose proof (consistent_visible_iff p st2 s0 H2 Hs0 Hv k x2 E2) as I2.
    rewrite <- Hc in I2.
    destruct (visible x1), (visible x2); try done.
    + destruct I1 as [I1 _], I2 as [_ I2]. by rewrite I2; [|apply I1].
    + destruct I1 as [_ I1], I2 as [I2 _]. by rewrite I1; [|apply I2].
  - destruct (slides st2 !! k) as [x2|] eqn:E2; [|done].
    destruct (titles_lookup _ _ k x2 (eq_sym Ht) E2) as (x1 & E1' & _).
    congruence.
Qed.

Lemma view_determined_by_index_witness :
  breadcrumbs (moved (moved (init_state deck5) 4) 1)
  = breadcrumbs (moved (init_state deck5) 1)
  ∧ visible <$> slides (moved (moved (init_state deck5) 4) 1)
    = visible <$> slides (moved (init_state deck5) 1).
Proof.
  assert (Hr : reachable deck5 (init_state deck5)).
  { eapply reachable_init. vm_compute. reflexivity. }
  assert (Hr1 : reachable deck5 (moved (init_state deck5) 1)).
  { eapply (reachable_call deck5 _ Next); [exact Hr|]. vm_compute. reflexivity. }
  assert (Hr4 : reachable deck5 (moved (init_state deck5) 4)).
  { eapply (reachable_call deck5 _ (GoTo 8)); [exact Hr|]. vm_compute. reflexivity. }
  assert (Hr41 : reachable deck5 (moved (moved (init_state deck5) 4) 1)).
  { eapply (reachable_call deck5 _ (GoTo 1)); [exact Hr4|]. vm_compute. reflexivity. }
  destruct (view_determined_by_index deck5 _ _ Hr41 Hr1) as (Hb & _ & _ & Hv).
  - reflexivity.
  - split; [exact Hb|]. apply (Hv plain_slide); reflexivity.
Defined.

Lemma click_next_result (p : Page) (st : State) :
  consistent p st →
  ∃ st' w, handle ClickNext st = Ok (tt, st', w) ∧ consistent p st'
           ∧ current st' = clamp st (current st + 1)
           ∧ slide_count st' = slide_count st.
Proof.
  intros H. simpl. unfold next. rewrite bind_get_current.
  by apply goTo_result.
Qed.

Lemma click_prev_result (p : Page) (st : State) :
  consistent p st →
  ∃ st' w, handle ClickPrev st = Ok (tt, st', w) ∧ consistent p st'
           ∧ current st' = clamp st (current st - 1)
           ∧ slide_count st' = slide_count st.
Proof.
  intros H. simpl. unfold prev. rewrite bind_get_current.
  by apply goTo_result.
Qed.

(** X9. Away from the ends, next and prev undo each other: below the last
    index, a next click followed by a prev click comes back to the same
    index with the same breadcrumb view and flags; above index 0 so does a
    prev click followed by a next click. *)
Theorem next_prev_round_trip (p : Page) (st : State) :
  reachable p st →
  (current st < slide_count st - 1 →
   ∃ st', after [ClickNext; ClickPrev] st = Some st'
          ∧ current st' = current st ∧ breadcrumbs st' = breadcrumbs st
          ∧ prevBtn_disabled st' = prevBtn_disabled st
          ∧ nextBtn_disabled st' = nextBtn_disabled st)
  ∧ (0 < current st →
     ∃ st', after [ClickPrev; ClickNext] st = Some st'
            ∧ current st' = current st ∧ breadcrumbs st' = breadcrumbs st
            ∧ prevBtn_disabled st' = prevBtn_disabled st
            ∧ nextBtn_disabled st' = nextBtn_disabled st).
Proof.
  intros Hr. pose proof (reachable_consistent p st Hr) as H.
  pose proof (cons_range _ _ H) as Hrg.
  split; intros Hc.
  - destruct (click_next_result p st H) as (st1 & w1 & E1 & H1 & C1 & N1).
    destruct (click_prev_result p st1 H1) as (st2 & w2 & E2 & H2 & C2 & N2).
    exists st2. rewrite (after_cons _ _ _ _ _ E1), (after_cons _ _ _ _ _ E2).
    assert (Hback : current st2 = current st).
    { rewrite C2, C1. unfold clamp. rewrite N1. lia. }
    split; [done|]. split; [done|].
    by apply (consistent_same_view p st2 st).
  - destruct (click_prev_result p st H) as (st1 & w1 & E1 & H1 & C1 & N1).
    destruct (click_next_result p st1 H1) as (st2 & w2 & E2 & H2 & C2 & N2).
    exists st2. rewrite (after_cons _ _ _ _ _ E1), (after_cons _ _ _ _ _ E2).
    assert (Hback : current st2 = current st).
    { rewrite C2, C1. unfold clamp. rewrite N1. lia. }
    split; [done|]. split; [done|].
    by apply (consistent_same_view p st2 st).
Qed.

Lemma next_prev_round_trip_witness :
  (∃ st', after [ClickNext; ClickPrev] (moved (init_state deck5) 2) = Some st'
          ∧ current st' = 2)
  ∧ (∃ st', after [ClickPrev; ClickNext] (moved (init_state deck5) 2) = Some st'
            ∧ current st' = 2).
Proof.
  assert (Hr : reachable deck5 (moved (init_state deck5) 2)).
  { eapply (reachable_call deck5 (init_state deck5) (GoTo 2)).
    - eapply reachable_init. vm_compute. reflexivity.
    - vm_compute. reflexivity. }
  destruct (next_prev_round_trip deck5 _ Hr) as [Hnp Hpn].
  split.
  - destruct Hnp as (st' & Ha & Hc & _); [vm_compute; reflexivity|].
    exists st'. split; [exact Ha|]. rewrite Hc. reflexivity.
  - destruct Hpn as (st' & Ha & Hc & _); [vm_compute; reflexivity|].
    exists st'. split; [exact Ha|]. rewrite Hc. reflexivity.
Defined.

(** X10. A click on the marker at position [k] of a reachable state makes
    [k] the current index; a click event for a position that has no marker
    does nothing. *)
Theorem click_crumb_jumps (p : Page) (st : State) (k : nat) :
  reachable p st →
  (Z.of_nat k < slide_count st →
   ∃ st' w, handle (ClickCrumb k) st = Ok (tt, st', w)
            ∧ current st' = Z.of_nat k)
  ∧ (slide_count st ≤ Z.of_nat k →
     handle (ClickCrumb k) st = Ok (tt, st, [])).
Proof.
  intros Hr. pose proof (reachable_consistent p st Hr) as H.
  rewrite handle_click_crumb, (cons_breadcrumbs _ _ H).
  unfold render, slide_count. rewrite list_lookup_imap. split; intros Hk.
  - destruct (lookup_lt_is_Some_2 (slides st) k) as [s Hs]; [lia|].
    rewrite Hs. simpl. rewrite bind_mret_unit.
    destruct (goTo_result p st (Z.of_nat k) H) as (st' & w & Hgo & _ & Hc & _).
    exists st', w. split; [done|]. rewrite Hc. unfold clamp, slide_count. lia.
  - rewrite (lookup_ge_None_2 (slides st) k); [done|lia].
Qed.

Lemma click_crumb_jumps_witness :
  (∃ st' w, handle (ClickCrumb 3) (init_state deck5) = Ok (tt, st', w)
            ∧ current st' = 3)
  ∧ handle (ClickCrumb 5) (init_state deck5) = Ok (tt, init_state deck5, []).
Proof.
  assert (Hr : reachable deck5 (init_state deck5)).
  { eapply reachable_init. vm_compute. reflexivity. }
  split.
  - apply (proj1 (click_crumb_jumps deck5 (init_state deck5) 3 Hr)).
    vm_compute. reflexivity.
  - apply (proj2 (click_crumb_jumps deck5 (init_state deck5) 5 Hr)).
    vm_compute. discriminate.
Defined.

(** ** Small decks *)

(** X11. On a page with exactly one slide both controls are disabled in
    every reachable state, the index stays 0, and no event changes or
    writes anything. *)
Theorem single_slide_deck (p : Page) (st : State) :
  length (page_slides p) = 1%nat → reachable p st →
  current st = 0
  ∧ prevBtn_disabled st = true ∧ nextBtn_disabled st = true
  ∧ ∀ e, handle e st = Ok (tt, st, []).
Proof.
  intros Hone Hr. pose proof (reachable_consistent p st Hr) as H.
  pose proof (consistent_count p st H) as HN. rewrite Hone in HN.
  pose proof (cons_range _ _ H) as Hrg. rewrite HN in Hrg.
  assert (Hc : current st = 0) by lia.
  split; [done|]. split; [|split].
  - rewrite (cons_prev _ _ H). by apply bool_decide_eq_true_2.
  - rewrite (cons_next _ _ H). apply bool_decide_eq_true_2. lia.
  - intros e. apply (handle_stays p st e H).
    intros i. unfold clamp. lia.
Qed.

Lemma single_slide_deck_witness :
  current (init_state (page_of [plain_slide])) = 0
  ∧ prevBtn_disabled (init_state (page_of [plain_slide])) = true
  ∧ nextBtn_disabled (init_state (page_of [plain_slide])) = true
  ∧ handle (KeyDown "ArrowRight") (init_state (page_of [plain_slide]))
    = Ok (tt, init_state (page_of [plain_slide]), []).
Proof.
  destruct (single_slide_deck (page_of [plain_slide])
              (init_state (page_of [plain_slide])))
    as (Hc & Hp & Hn & He).
  - reflexivity.
  - eapply reachable_init. vm_compute. reflexivity.
  - split; [exact Hc|]. split; [exact Hp|]. split; [exact Hn|].
    exact (He (KeyDown "ArrowRight")).
Defined.

(** X12. On a page without slides, every reachable state has an empty
    breadcrumb view, the previous control disabled and the next control
    enabled (the index 0 is not [N - 1 = -1]); no event changes or writes
    anything. *)
Theorem empty_deck_controls (p : Page) (st : State) :
  page_slides p = [] → reachable p st →
  breadcrumbs st = []
  ∧ prevBtn_disabled st = true ∧ nextBtn_disabled st = false
  ∧ ∀ e, handle e st = Ok (tt, st, []).
Proof.
  intros Hnil Hr. pose proof (reachable_consistent p st Hr) as H.
  pose proof (consistent_count p st H) as HN. rewrite Hnil in HN.
  simpl in HN.
  pose proof (cons_range _ _ H) as Hrg. rewrite HN in Hrg.
  assert (Hc : current st = 0) by lia.
  assert (Hs : slides st = []).
  { apply nil_length_inv. unfold slide_count in HN. lia. }
  split; [|split; [|split]].
  - rewrite (cons_breadcrumbs _ _ H), Hs. reflexivity.
  - rewrite (cons_prev _ _ H). by apply bool_decide_eq_true_2.
  - rewrite (cons_next _ _ H). apply bool_decide_eq_false_2. lia.
  - intros e. apply (handle_stays p st e H).
    intros i. rewrite Hc. by apply clamp_stays_when_empty.
Qed.

Lemma empty_deck_controls_witness :
  breadcrumbs (init_state empty_deck) = []
  ∧ prevBtn_disabled (init_state empty_deck) = true
  ∧ nextBtn_disabled (init_state empty_deck) = false
  ∧ handle ClickNext (init_state empty_deck)
    = Ok (tt, init_state empty_deck, []).
Proof.
  destruct (empty_deck_controls empty_deck (init_state empty_deck))
    as (Hb & Hp & Hn & He).
  - reflexivity.
  - eapply reachable_init. vm_compute. reflexivity.
  - split; [exact Hb|]. split; [exact Hp|]. split; [exact Hn|].
    exact (He ClickNext).
Defined.

(** ** Repeated presses *)

(** X13. On a page with at least one slide, [n] clicks on the next control
    from a reachable state end at [min(current + n, N - 1)], and [n]
    clicks on the previous control end at [max(current - n, 0)]: the index
    saturates at the ends and never wraps around. *)
Theorem presses_saturate (p : Page) (n : nat) :
  page_slides p ≠ [] →
  ∀ st, reachable p st →
  (∃ st', after (replicate n ClickNext) st = Some st'
          ∧ current st' = Z.min (current st + Z.of_nat n) (slide_count st - 1))
  ∧ (∃ st', after (replicate n ClickPrev) st = Some st'
            ∧ current st' = Z.max (current st - Z.of_nat n) 0).
Proof.
  intros Hne. induction n as [|n IH]; intros st Hr;
    pose proof (reachable_consistent p st Hr) as H;
    pose proof (consistent_in_range p st H Hne) as Hrg.
  - split; exists st; (split; [done|lia]).
  - split.
    + destruct (click_next_result p st H) as (st1 & w1 & E1 & _ & C1 & N1).
      destruct (proj1 (IH st1 (handle_reachable p st st1 _ w1 Hr E1)))
        as (st' & Ha & Hc).
      exists st'. simpl replicate. rewrite (after_cons _ _ _ _ _ E1).
      split; [done|]. rewrite Hc, C1, N1. unfold clamp. lia.
    + destruct (click_prev_result p st H) as (st1 & w1 & E1 & _ & C1 & N1).
      destruct (proj2 (IH st1 (handle_reachable p st st1 _ w1 Hr E1)))
        as (st' & Ha & Hc).
      exists st'. simpl replicate. rewrite (after_cons _ _ _ _ _ E1).
      split; [done|]. rewrite Hc, C1. unfold clamp. lia.
Qed.

Lemma presses_saturate_witness :
  (∃ st', after (replicate 7 ClickNext) (init_state deck3) = Some st'
          ∧ current st' = 2)
  ∧ (∃ st', after (replicate 7 ClickPrev) (init_state deck3) = Some st'
            ∧ current st' = 0).
Proof.
  apply (presses_saturate deck3 7).
  - discriminate.
  - eapply reachable_init. vm_compute. reflexivity.
Defined.

(** ** After a move *)

(** X14. Whatever the page's markup, once a [goTo] has changed the index
    exactly one slide is on show, the one at the new index. *)
Theorem move_shows_only_target (p : Page) (st st' : State) (i : Z)
    (w : list Write) :
  reachable p st → goTo i st = Ok (tt, st', w) → current st' ≠ current st →
  visible_indices (slides st') = [Z.to_nat (current st')].
Proof.
  intros Hr Hgo Hch. pose proof (reachable_consistent p st Hr) as H.
  destruct (goTo_total p st i H) as [[Hgo' _]|[Hgo' Hne]];
    rewrite Hgo' in Hgo; inversion Hgo; subst; [done|].
  pose proof (moved_in_range p st i H Hne) as Hc.
  assert (Ht : 0 ≤ clamp st i < slide_count st) by (apply clamp_range; lia).
  unfold visible_indices.
  rewrite (positions_single visible _ 0 (Z.to_nat (clamp st i))).
  - change (current (moved st (clamp st i))) with (clamp st i).
    pose proof (moved_count st (clamp st i)) as Hn. unfold slide_count in *.
    destruct (decide _); [done|lia].
  - intros k x Hx. simpl. split.
    + intros Hv. destruct (decide (k = Z.to_nat (clamp st i))); [done|].
      exfalso. rewrite visible_hidden in Hv; [done|].
      destruct (decide (k = Z.to_nat (current st))) as [->|Hk].
      * by apply (moved_lookup_source st (clamp st i)); try lia.
      * rewrite moved_lookup_other in Hx by done.
        apply (cons_hidden _ _ H k x Hx). lia.
    + intros ->. apply moved_lookup_target in Hx.
      unfold visible. rewrite Hx. by apply bool_decide_eq_true_2.
Qed.

Lemma move_shows_only_target_witness :
  visible_indices (slides (moved (init_state hidden_first) 1)) = [1%nat].
Proof.
  apply (move_shows_only_target hidden_first (init_state hidden_first)
           (moved (init_state hidden_first) 1) 1
           (moved_writes (init_state hidden_first) 1)).
  - eapply reachable_init. vm_compute. reflexivity.
  - vm_compute. reflexivity.
  - vm_compute. discriminate.
Defined.

(** ** When [goTo] faults *)

(** X15. In any state, reachable or not, [goTo(i)] raises the [TypeError]
    exactly when the clamped target differs from [current] and [current]
    is not the index of a slide; in every other case it returns. *)
Theorem goTo_faults_iff (st : State) (i : Z) :
  goTo i st = TypeError
  ↔ clamp st i ≠ current st ∧ ¬ (0 ≤ current st < slide_count st).
Proof.
  split.
  - intros Hf. destruct (decide (clamp st i = current st)) as [Heq|Hne].
    { by rewrite (goTo_stays st i Heq) in Hf. }
    destruct (decide (0 ≤ current st < slide_count st)) as [Hc|Hc].
    { by rewrite (goTo_moves st i Hne Hc) in Hf. }
    done.
  - intros [Hne Hc]. by apply goTo_faults.
Qed.

Lemma goTo_faults_iff_witness :
  goTo 0 {| slides := [plain_slide]; prevBtn_disabled := false;
            nextBtn_disabled := false; breadcrumbs := []; current := 3 |}
  = TypeError.
Proof.
  apply (proj2 (goTo_faults_iff _ 0)). vm_compute.
  split; [discriminate|]. intros [_ Hlt]. discriminate Hlt.
Defined.

(** ** Rendering again *)

(** X16. [updateBreadcrumbs] replaces whatever the container holds by one
    marker per slide and touches nothing else; run a second time it leaves
    the same state, so markers never pile up. *)
Theorem updateBreadcrumbs_idempotent (st : State) :
  ∃ st1 w1 w2,
    updateBreadcrumbs st = Ok (tt, st1, w1)
    ∧ updateBreadcrumbs st1 = Ok (tt, st1, w2)
    ∧ length (breadcrumbs st1) = length (slides st)
    ∧ slides st1 = slides st ∧ current st1 = current st
    ∧ prevBtn_disabled st1 = prevBtn_disabled st
    ∧ nextBtn_disabled st1 = nextBtn_disabled st.
Proof.
  eexists _, _, _. split; [apply updateBreadcrumbs_run|].
  split; [rewrite updateBreadcrumbs_run; reflexivity|].
  simpl. unfold render. by rewrite length_imap.
Qed.
